(** * TwangyBot: the greeting bot of [main.py]

    [main.py] is a script of some thirty lines: it builds a Discord client
    and a Wit client, decorates two coroutines, [on_message] and [on_ready],
    and hands over to the client's run loop.

    The development follows the script.  Text is [string], characters
    below 256, and for the handler once more a sequence of code points; the
    module's global namespace is a finite map from names to values; a
    statement is a computation that reads and writes that namespace, records
    the calls it makes into the two libraries and onto standard output, and
    may raise. *)

From Stdlib Require Import Ascii String NArith Bool List.
From stdpp Require Import base option list gmap strings.
Import ListNotations.

Local Open Scope string_scope.
Local Open Scope list_scope.

(** ** Text *)

Module Str.

(** A character is a code point below 256 (ASCII and the Latin-1
    supplement).  On that range [str.lower] maps each character on its own:
    [A]-[Z] and the accented capitals U+00C0-U+00DE, the multiplication sign
    U+00D7 apart, move up by 32; every other character is kept. *)
Definition is_upper (c : ascii) : bool :=
  let n := N_of_ascii c in
  ((65 <=? n) && (n <=? 90) || (192 <=? n) && (n <=? 222) && negb (n =? 215))%N.

Definition lower_char (c : ascii) : ascii :=
  if is_upper c then ascii_of_N (N_of_ascii c + 32) else c.

(** [s.lower()] *)
Fixpoint lower (s : string) : string :=
  match s with
  | EmptyString => EmptyString
  | String c s' => String (lower_char c) (lower s')
  end.

(** The capital of a small letter, where it is one character of the range.
    This is not [str.upper]: the sharp s, the micro sign and the y with
    diaeresis are kept here, while [str.upper] sends them to "SS", U+039C
    and U+0178 ([Unicode.to_upper] below has them). *)
Definition is_lower (c : ascii) : bool :=
  let n := N_of_ascii c in
  ((97 <=? n) && (n <=? 122) || (224 <=? n) && (n <=? 254) && negb (n =? 247))%N.

Definition upper_char (c : ascii) : ascii :=
  if is_lower c then ascii_of_N (N_of_ascii c - 32) else c.

(** [s.startswith(prefix)] *)
Fixpoint startswith (s prefix : string) {struct prefix} : bool :=
  match prefix, s with
  | EmptyString, _ => true
  | String p prefix', String c s' => Ascii.eqb c p && startswith s' prefix'
  | String _ _, EmptyString => false
  end.

(** [needle in s] *)
Fixpoint contains (s needle : string) : bool :=
  startswith s needle ||
  match s with
  | EmptyString => false
  | String _ s' => contains s' needle
  end.

(** [t] is [s] with the case of some of its letters changed one for one:
    the two have the same length and, position by position, the same
    character or its capital or its small letter.  A change of case that
    alters the number of characters is no recasing in this sense. *)
Definition recased_char (c d : ascii) : Prop :=
  d = c \/ d = lower_char c \/ d = upper_char c.

Inductive recased : string -> string -> Prop :=
| recased_nil : recased EmptyString EmptyString
| recased_cons c d s t :
    recased_char c d -> recased s t -> recased (String c s) (String d t).

End Str.

(** ** Text of any code points

    A Python text is a sequence of code points, and [str.lower] and
    [str.upper] map each code point to one code point or to several.  The
    mappings are given here for Basic Latin and the Latin-1 supplement, for
    the five letters U+1E96 to U+1E9A whose capitals are two code points
    long, and for what these map to ([modelled]).  They are the same in
    every version of the Unicode tables.  Code points outside [modelled] are
    handed back as they are; their mappings are not given here. *)

Module Unicode.

Local Open Scope N_scope.

Definition to_lower (c : N) : list N :=
  if (65 <=? c) && (c <=? 90) || (192 <=? c) && (c <=? 222) && negb (c =? 215)
  then [c + 32]
  else if c =? 0x178 then [0xFF]          (* Y with diaeresis *)
  else if c =? 0x39C then [0x3BC]         (* Greek mu *)
  else [c].

Definition to_upper (c : N) : list N :=
  if (97 <=? c) && (c <=? 122) || (224 <=? c) && (c <=? 254) && negb (c =? 247)
  then [c - 32]
  else if c =? 0xDF then [0x53; 0x53]     (* sharp s: SS *)
  else if c =? 0xFF then [0x178]          (* y with diaeresis *)
  else if c =? 0xB5 then [0x39C]          (* micro sign: Greek capital mu *)
  else if c =? 0x3BC then [0x39C]
  else if c =? 0x1E96 then [0x48; 0x331]  (* h with line below *)
  else if c =? 0x1E97 then [0x54; 0x308]  (* t with diaeresis *)
  else if c =? 0x1E98 then [0x57; 0x30A]  (* w with ring above *)
  else if c =? 0x1E99 then [0x59; 0x30A]  (* y with ring above *)
  else if c =? 0x1E9A then [0x41; 0x2BE]  (* a with right half ring *)
  else [c].

(** The code points whose mappings are given above. *)
Definition modelled (c : N) : bool :=
  (c <? 256) ||
  existsb (N.eqb c)
    [0x178; 0x2BE; 0x308; 0x30A; 0x331; 0x39C; 0x3BC;
     0x1E96; 0x1E97; 0x1E98; 0x1E99; 0x1E9A].

(** [s.lower()] and [s.upper()] *)
Definition lower (s : list N) : list N := flat_map to_lower s.


(** [s.startswith(prefix)] *)
Fixpoint startswith (s prefix : list N) {struct prefix} : bool :=
  match prefix, s with
  | [], _ => true
  | p :: prefix', c :: s' => (c =? p) && startswith s' prefix'
  | _ :: _, [] => false
  end.

(** The code points of a text of characters below 256. *)
Definition of_string (s : string) : list N :=
  map N_of_ascii (list_ascii_of_string s).

End Unicode.

(** ** The Discord library, as far as the script uses it

    The library is not part of the repository.  The script reads three
    attributes of a user ([name], [id], [mention]), compares two users with
    [==], and passes a channel through to [send_message]. *)

Class Discord := {
  User : Type;
  Channel : Type;
  user_name : User -> string;
  user_id : User -> string;
  user_mention : User -> string;
  user_eq : User -> User -> bool;
}.

Section Bot.

Context `{D : Discord}.

(** The message of a message event: the three attributes [on_message] reads. *)
Record Message := {
  author : User;
  content : string;
  channel : Channel;
}.

(** A [discord.Client]: [user] is [None] until the client has logged in. *)
Record Client := { user : option User }.

(** What a global name can be bound to. *)
Inductive Value :=
| VStr (s : string)
| VModule (name : string)
| VWitClass
| VClient (c : Client)
| VWit (token : string)
| VCoroutine (name : string).

(** Calls that leave the script: into the two libraries and onto standard
    output. *)
Inductive Effect :=
| ENewClient
| ENewWit (token : string)
| ERegister (coroutine : string)
| ERun (token : string)
| ESend (destination : Channel) (text : string)
| EStdout (text : string).

Inductive Exception :=
| NameError (name : string)
| AttributeError (attribute : string)
| TypeError.

(** ** Computations *)

Record Outcome (A : Type) := mkOutcome {
  globals_after : gmap string Value;
  effects : list Effect;
  result : Exception + A;
}.
Arguments mkOutcome {A} _ _ _.
Arguments globals_after {A} _.
Arguments effects {A} _.
Arguments result {A} _.

Definition M (A : Type) : Type := gmap string Value -> Outcome A.

Definition ret {A} (a : A) : M A := fun g => mkOutcome g [] (inr a).

(** An outcome, after the effects [tr] that came before it. *)
Definition after {A} (tr : list Effect) (o : Outcome A) : Outcome A :=
  mkOutcome (globals_after o) (tr ++ effects o) (result o).

Definition bind {A B} (m : M A) (k : A -> M B) : M B := fun g =>
  let o := m g in
  match result o with
  | inl e => mkOutcome (globals_after o) (effects o) (inl e)
  | inr a => after (effects o) (k a (globals_after o))
  end.

#[global] Instance M_ret : MRet M := @ret.
#[global] Instance M_bind : MBind M := fun A B k m => bind m k.

Definition raise {A} (e : Exception) : M A := fun g => mkOutcome g [] (inl e).

Definition emit (e : Effect) : M unit := fun g => mkOutcome g [e] (inr tt).

(** Reading a global name; an unbound one raises [NameError]. *)
Definition name (n : string) : M Value := fun g =>
  match g !! n with
  | Some v => mkOutcome g [] (inr v)
  | None => mkOutcome g [] (inl (NameError n))
  end.

(** [n = v] at module level *)
Definition assign (n : string) (v : Value) : M unit := fun g =>
  mkOutcome (<[n := v]> g) [] (inr tt).

(** ** What the handlers use of the client *)

(** What [x.user] can be: the user of a client that has logged in, [None]
    for a client that has not, or, when [x] is the module [discord] itself,
    the submodule [discord.user]. *)
Inductive UserAttr :=
| AUser (u : User)
| ANone
| ASubmodule.

Definition client_user (c : Client) : UserAttr :=
  match user c with
  | Some u => AUser u
  | None => ANone
  end.

(** [x.user]: of the values a name of the script can hold, a client and the
    module [discord] have the attribute. *)
Definition user_of (v : Value) : Exception + UserAttr :=
  match v with
  | VClient c => inr (client_user c)
  | VModule name =>
      if String.eqb name "discord" then inr ASubmodule
      else inl (AttributeError "user")
  | _ => inl (AttributeError "user")
  end.

Definition attr_user (v : Value) : M UserAttr :=
  match user_of v with
  | inr u => mret u
  | inl e => raise e
  end.

(** [u.name] and [u.id]: only a user has them. *)
Definition attr_name (u : UserAttr) : M string :=
  match u with
  | AUser u => mret (user_name u)
  | _ => raise (AttributeError "name")
  end.

Definition attr_id (u : UserAttr) : M string :=
  match u with
  | AUser u => mret (user_id u)
  | _ => raise (AttributeError "id")
  end.

(** [a == u]: a user equals neither [None] nor a module. *)
Definition eq_user (a : User) (u : UserAttr) : bool :=
  match u with
  | AUser u => user_eq a u
  | _ => false
  end.

(** [c.send_message(destination, text)]: the call is what is recorded.
    Whether the library then gets the text through is its own matter; a
    send that fails inside the library is not modelled, the handler is taken
    to resume. *)
Definition send_message (v : Value) (destination : Channel) (text : string) : M unit :=
  match v with
  | VClient _ => emit (ESend destination text)
  | _ => raise (AttributeError "send_message")
  end.

(** [print(s)] writes [s] and a line feed. *)
Definition newline : string := String (ascii_of_N 10) EmptyString.

Definition print (s : string) : M unit := emit (EStdout (s +:+ newline)).

(** ** The two handlers *)

Definition on_message (message : Message) : M unit :=
  (* do not respond to own messages *)
  c ← name "discord_client";
  self ← attr_user c;
  if eq_user (author message) self then mret tt else
  let content := Str.lower (content message) in
  (* respond to only messages starting with twangy *)
  if negb (Str.startswith content "twangy") then mret tt else
  let msg := "Hello " +:+ user_mention (author message) in
  c ← name "discord_client";
  send_message c (channel message) msg.

Definition on_ready : M unit :=
  c ← name "discord_client";
  self ← attr_user c;
  n ← attr_name self;
  print ("Username: " +:+ n) ;;
  c ← name "discord_client";
  self ← attr_user c;
  i ← attr_id self;
  print ("Id: " +:+ i).

(** ** The event loop's side

    Once running, the client calls a registered coroutine for each event.
    By then it has logged in: [discord_client.user] is the bot's own user. *)

Definition logged_in (g : gmap string Value) (bot : User) : Prop :=
  g !! "discord_client" = Some (VClient {| user := Some bot |}).

Inductive Event :=
| Ready
| Received (message : Message).

Definition handle (ev : Event) : M unit :=
  match ev with
  | Ready => on_ready
  | Received message => on_message message
  end.

(** Events are handled one after the other, in the order they arrive.  (A
    handler that raises ends the run here; what the library does with the
    exception is not modelled.) *)
Fixpoint dispatch (evs : list Event) : M unit :=
  match evs with
  | [] => mret tt
  | ev :: evs' => handle ev ;; dispatch evs'
  end.

(** ** The script, top to bottom *)

(** [discord.Client()] *)
Definition new_Client (module : Value) : M Value :=
  match module with
  | VModule "discord" => emit ENewClient ;; mret (VClient {| user := None |})
  | _ => raise (AttributeError "Client")
  end.

(** [Wit(token)] *)
Definition new_Wit (class token : Value) : M Value :=
  match class, token with
  | VWitClass, VStr t => emit (ENewWit t) ;; mret (VWit t)
  | _, _ => raise TypeError
  end.

(** [c.event(coroutine)]: the client takes the coroutine as the handler of
    the event of that name and gives it back. *)
Definition event (c : Value) (coroutine : string) : M Value :=
  match c with
  | VClient _ => emit (ERegister coroutine) ;; mret (VCoroutine coroutine)
  | _ => raise (AttributeError "event")
  end.

(** [c.run(token)] *)
Definition run (c token : Value) : M unit :=
  match c, token with
  | VClient _, VStr t => emit (ERun t)
  | VClient _, _ => raise TypeError
  | _, _ => raise (AttributeError "run")
  end.

(** A decorated definition
<<
    @receiver.event
    async def coroutine(...): ...
>>
    evaluates the decorator first, which reads the global [receiver]; then
    the coroutine is made, passed to the decorator, and what comes back is
    bound to the coroutine's name. *)
Definition decorated_def (receiver coroutine : string) : M unit :=
  c ← name receiver;
  f ← event c coroutine;
  assign coroutine f.

(** The script with the decorators' receiver left open. *)
Definition script (receiver : string) : M unit :=
  assign "discord" (VModule "discord") ;;          (* import discord *)
  assign "Wit" VWitClass ;;                        (* from wit import Wit *)
  assign "DISCORD_TOKEN" (VStr "xxx") ;;
  assign "WIT_TOKEN" (VStr "xxx") ;;
  (d ← name "discord";
   c ← new_Client d;
   assign "discord_client" c) ;;
  (W ← name "Wit";
   t ← name "WIT_TOKEN";
   w ← new_Wit W t;
   assign "wit_client" w) ;;
  decorated_def receiver "on_message" ;;
  decorated_def receiver "on_ready" ;;
  (c ← name "discord_client";
   t ← name "DISCORD_TOKEN";
   run c t).

(** The script from the first decorator on. *)
Definition rest_of_script (receiver : string) : M unit :=
  decorated_def receiver "on_message" ;;
  decorated_def receiver "on_ready" ;;
  (c ← name "discord_client";
   t ← name "DISCORD_TOKEN";
   run c t).

(** [main.py] decorates with [@client.event]. *)
Definition main_py : M unit := script "client".

(** The namespace once the two clients are built (lines 1 to 9). *)
Definition with_clients (g : gmap string Value) : gmap string Value :=
  <["wit_client" := VWit "xxx"]>
    (<["discord_client" := VClient {| user := None |}]>
       (<["WIT_TOKEN" := VStr "xxx"]>
          (<["DISCORD_TOKEN" := VStr "xxx"]>
             (<["Wit" := VWitClass]> (<["discord" := VModule "discord"]> g))))).

(** The namespace once both coroutines are bound as well. *)
Definition with_handlers (g : gmap string Value) : gmap string Value :=
  <["on_ready" := VCoroutine "on_ready"]>
    (<["on_message" := VCoroutine "on_message"]> (with_clients g)).

(** The script with each decorator's receiver left open: [first] on line
    11, [second] on line 26.  [script r] is [script_with r r]. *)
Definition script_with (first second : string) : M unit :=
  assign "discord" (VModule "discord") ;;
  assign "Wit" VWitClass ;;
  assign "DISCORD_TOKEN" (VStr "xxx") ;;
  assign "WIT_TOKEN" (VStr "xxx") ;;
  (d ← name "discord";
   c ← new_Client d;
   assign "discord_client" c) ;;
  (W ← name "Wit";
   t ← name "WIT_TOKEN";
   w ← new_Wit W t;
   assign "wit_client" w) ;;
  decorated_def first "on_message" ;;
  decorated_def second "on_ready" ;;
  (c ← name "discord_client";
   t ← name "DISCORD_TOKEN";
   run c t).

(** ** Reading a trace *)

(** The outbound sends of a trace, in order. *)
Fixpoint sends (tr : list Effect) : list (Channel * string) :=
  match tr with
  | [] => []
  | ESend ch text :: tr' => (ch, text) :: sends tr'
  | _ :: tr' => sends tr'
  end.

(** All that a trace wrote on standard output. *)
Fixpoint stdout (tr : list Effect) : string :=
  match tr with
  | [] => ""
  | EStdout text :: tr' => text +:+ stdout tr'
  | _ :: tr' => stdout tr'
  end.

(** Whether an effect is a call into Wit. *)
Definition uses_wit (e : Effect) : bool :=
  match e with
  | ENewWit _ => true
  | _ => false
  end.

(** The same message with another text. *)
Definition with_content (message : Message) (text : string) : Message :=
  {| author := author message; content := text; channel := channel message |}.

End Bot.

Arguments mkOutcome {D A} _ _ _.
Arguments globals_after {D A} _.
Arguments effects {D A} _.
Arguments result {D A} _.
Arguments after {D A} _ _.

(** ** The message handler on text of any code points

    [on_message] once more, line by line, for a message whose text is a
    sequence of code points. *)

Module Wide.

Section Handler.

Context `{D : Discord}.

Record Message := {
  author : User;
  content : list N;
  channel : Channel;
}.

Definition on_message (message : Message) : M unit :=
  (* do not respond to own messages *)
  c ← name "discord_client";
  self ← attr_user c;
  if eq_user (author message) self then mret tt else
  let content := Unicode.lower (content message) in
  (* respond to only messages starting with twangy *)
  if negb (Unicode.startswith content (Unicode.of_string "twangy"))
  then mret tt else
  let msg := "Hello " +:+ user_mention (author message) in
  c ← name "discord_client";
  send_message c (channel message) msg.

End Handler.

End Wide.

(** A message of characters below 256, as a message of code points. *)
Definition widen `{D : Discord} (m : Message) : Wide.Message :=
  {| Wide.author := author m;
     Wide.content := Unicode.of_string (content m);
     Wide.channel := channel m |}.

(** The lines of a text: cut after each line feed; a last line without line
    feed counts as well. *)
Fixpoint lines_from (current : string) (s : string) : list string :=
  match s with
  | EmptyString =>
      match current with
      | EmptyString => []
      | _ => [current]
      end
  | String c s' =>
      if Ascii.eqb c (ascii_of_N 10)
      then current :: lines_from "" s'
      else lines_from (current +:+ String c "") s'
  end.

Definition lines (s : string) : list string := lines_from "" s.

Definition one_line (s : string) : Prop := Str.contains s newline = false.

(** ** A server to try things on

    Users are accounts with an id and a name, equal when their ids are, and
    mentioned as [<@id>]; a channel is its name. *)

Module Demo.

Record Account := { account_id : string; account_name : string }.

#[global] Instance discord : Discord := {|
  User := Account;
  Channel := string;
  user_name := account_name;
  user_id := account_id;
  user_mention := fun u => "<@" +:+ account_id u +:+ ">";
  user_eq := fun a b => String.eqb (account_id a) (account_id b);
|}.

Definition twangy : Account := {| account_id := "1"; account_name := "Twangy" |}.
Definition alice : Account := {| account_id := "2"; account_name := "alice" |}.

(** The namespace the handlers run in: the script's names, the client
    logged in as [twangy]. *)
Definition namespace : gmap string Value :=
  <["discord_client" := VClient {| user := Some twangy |}]> (with_clients ∅).

(** The same without the Wit client, and with one more name. *)
Definition namespace_without_wit : gmap string Value :=
  delete "wit_client" namespace.

Definition namespace_and_more : gmap string Value :=
  <["seen" := VStr "twangy ping"]> namespace.

Definition said (who : Account) (text : string) : Message :=
  {| author := who; content := text; channel := "general" |}.




End Demo.

(** * Properties *)

(** ** Text *)

Section StrFacts.

Import Str.

Lemma lower_char_idem c : lower_char (lower_char c) = lower_char c.
Proof. destruct c as [[] [] [] [] [] [] [] []]; reflexivity. Qed.

Lemma lower_upper_char c : lower_char (upper_char c) = lower_char c.
Proof. destruct c as [[] [] [] [] [] [] [] []]; reflexivity. Qed.

Lemma recased_char_lower c d : recased_char c d -> lower_char d = lower_char c.
Proof.
  intros [-> | [-> | ->]];
    [reflexivity | apply lower_char_idem | apply lower_upper_char].
Qed.

(** Changing the case of letters is not seen after [lower]. *)
Lemma recased_lower s t : recased s t -> lower t = lower s.
Proof.
  induction 1 as [| c d s t Hc _ IH]; simpl.
  - reflexivity.
  - now rewrite (recased_char_lower _ _ Hc), IH.
Qed.

Lemma startswith_app p r : startswith (p +:+ r) p = true.
Proof.
  induction p as [| c p IH]; simpl; [reflexivity |].
  now rewrite Ascii.eqb_refl, IH.
Qed.

(** [startswith] is the prefix test: whatever follows the prefix is free. *)
Lemma startswith_spec s p : startswith s p = true <-> exists r, s = p +:+ r.
Proof.
  split.
  - revert s. induction p as [| c p IH]; intros s H.
    + now exists s.
    + destruct s as [| d s]; simpl in H; [discriminate |].
      apply andb_prop in H as [Hc Hs]. apply Ascii.eqb_eq in Hc as ->.
      destruct (IH _ Hs) as [r ->]. now exists r.
  - intros [r ->]. apply startswith_app.
Qed.

Lemma startswith_refl s : startswith s s = true.
Proof.
  induction s as [| c s IH]; simpl; [reflexivity |].
  now rewrite Ascii.eqb_refl, IH.
Qed.

Lemma contains_here s n : startswith s n = true -> contains s n = true.
Proof. intros H. destruct s; simpl in *; now rewrite H. Qed.

Lemma contains_app_r a s n : contains s n = true -> contains (a +:+ s) n = true.
Proof.
  intros H. induction a as [| c a IH]; simpl; [exact H |].
  rewrite IH. apply orb_true_r.
Qed.

End StrFacts.

Lemma one_line_cons c s :
  one_line (String c s) -> Ascii.eqb c (ascii_of_N 10) = false /\ one_line s.
Proof.
  unfold one_line. cbn [Str.contains Str.startswith newline].
  intros H. apply orb_false_elim in H as [H1 H2].
  rewrite andb_true_r in H1. now split.
Qed.

Lemma string_app_cons x (a b : string) : String x a +:+ b = String x (a +:+ b).
Proof. reflexivity. Qed.

Lemma string_app_assoc (a b c : string) : (a +:+ b) +:+ c = a +:+ b +:+ c.
Proof.
  induction a as [| x a IH]; [reflexivity |].
  now rewrite !string_app_cons, IH.
Qed.

Lemma string_app_nil_r (a : string) : a +:+ "" = a.
Proof.
  induction a as [| x a IH]; [reflexivity |].
  now rewrite string_app_cons, IH.
Qed.

(** Reading one line: a text without line feed, then the line feed. *)
Lemma lines_from_line current a rest :
  one_line a ->
  lines_from current (a +:+ newline +:+ rest) = (current +:+ a) :: lines_from "" rest.
Proof.
  revert current. induction a as [| c a IH]; intros current Ha.
  - change (lines_from current (String (ascii_of_N 10) rest)
            = (current +:+ "") :: lines_from "" rest).
    now rewrite string_app_nil_r.
  - apply one_line_cons in Ha as [Hc Ha].
    rewrite string_app_cons. cbn [lines_from]. rewrite Hc, (IH _ Ha).
    now rewrite string_app_assoc.
Qed.

Lemma one_line_app a b : one_line a -> one_line b -> one_line (a +:+ b).
Proof.
  intros Ha Hb. induction a as [| c a IH]; [exact Hb |].
  apply one_line_cons in Ha as [Hc Ha]. specialize (IH Ha).
  rewrite string_app_cons.
  unfold one_line in *. cbn [Str.contains Str.startswith newline].
  now rewrite Hc, IH.
Qed.

(** ** The handlers, run *)

(** The cases of a run of [on_message], after [on_message_run], and of a
    run of [on_ready], after [on_ready_run]: one goal each. *)
Ltac on_message_cases g :=
  destruct (g !! "discord_client") as [[] |];
  [destruct (user_of _) as [? | ?];
   [| destruct (eq_user _ _);
      [| destruct (Str.startswith _ _)]] .. |].

Ltac on_ready_cases g :=
  let v := fresh "v" in
  destruct (g !! "discord_client") as [v |];
  [destruct (user_of v) as [? | [? | |]] |].

Section Handlers.

Context `{D : Discord}.

Implicit Types (g : gmap string Value) (m : Message) (bot : User).

(** [on_message], run through: with respect to the namespace it only reads
    [discord_client], and hands the namespace back as it found it. *)
Lemma on_message_run m g :
  on_message m g =
  match g !! "discord_client" with
  | None => mkOutcome g [] (inl (NameError "discord_client"))
  | Some v =>
      match user_of v with
      | inl e => mkOutcome g [] (inl e)
      | inr self =>
          if eq_user (author m) self then mkOutcome g [] (inr tt)
          else if Str.startswith (Str.lower (content m)) "twangy"
          then match v with
               | VClient _ =>
                   mkOutcome g [ESend (channel m)
                                  ("Hello " +:+ user_mention (author m))]
                     (inr tt)
               | _ => mkOutcome g [] (inl (AttributeError "send_message"))
               end
          else mkOutcome g [] (inr tt)
      end
  end.
Proof.
  unfold on_message.
  generalize (Str.startswith (Str.lower (content m)) "twangy"). intros trigger.
  unfold mbind, M_bind, bind, name, attr_user.
  destruct (g !! "discord_client") as [v |] eqn:Hc; cbn; [| reflexivity].
  destruct (user_of v) as [e | self]; cbn; [reflexivity |].
  destruct (eq_user (author m) self); cbn; [reflexivity |].
  destruct trigger; cbn; [| reflexivity].
  rewrite Hc. destruct v; reflexivity.
Qed.


(** [on_ready], run through. *)
Lemma on_ready_run g :
  on_ready g =
  match g !! "discord_client" with
  | None => mkOutcome g [] (inl (NameError "discord_client"))
  | Some v =>
      match user_of v with
      | inl e => mkOutcome g [] (inl e)
      | inr (AUser bot) =>
          mkOutcome g [EStdout (("Username: " +:+ user_name bot) +:+ newline);
                       EStdout (("Id: " +:+ user_id bot) +:+ newline)] (inr tt)
      | inr _ => mkOutcome g [] (inl (AttributeError "name"))
      end
  end.
Proof.
  unfold on_ready, mbind, M_bind, bind, name, attr_user.
  destruct (g !! "discord_client") as [v |] eqn:Hc; cbn; [| reflexivity].
  destruct (user_of v) as [e | [bot | |]] eqn:Hu; cbn; try reflexivity.
  rewrite Hc. cbn. rewrite Hu. reflexivity.
Qed.


Lemma on_message_globals m g : globals_after (on_message m g) = g.
Proof.
  rewrite on_message_run. on_message_cases g; reflexivity.
Qed.

Lemma on_ready_globals g : globals_after (on_ready g) = g.
Proof.
  rewrite on_ready_run. on_ready_cases g; reflexivity.
Qed.

(** No handler writes the module's namespace. *)
Lemma handle_globals ev g : globals_after (handle ev g) = g.
Proof. destruct ev; [apply on_ready_globals | apply on_message_globals]. Qed.

Lemma dispatch_globals evs g : globals_after (dispatch evs g) = g.
Proof.
  induction evs as [| ev evs IH]; [reflexivity |].
  cbn [dispatch]. unfold mbind, M_bind, bind.
  destruct (result (handle ev g)); cbn; [apply handle_globals |].
  now rewrite handle_globals.
Qed.

(** A handler reads the namespace at [discord_client] and nowhere else. *)
Lemma handle_reads_client ev g g' :
  g !! "discord_client" = g' !! "discord_client" ->
  effects (handle ev g) = effects (handle ev g') /\
  result (handle ev g) = result (handle ev g').
Proof.
  intros H. destruct ev as [| m]; cbn [handle].
  - rewrite !on_ready_run, <- H. on_ready_cases g; now split.
  - rewrite !on_message_run, <- H. on_message_cases g; now split.
Qed.

(** So does a whole run of events. *)
Lemma dispatch_reads_client evs g g' :
  g !! "discord_client" = g' !! "discord_client" ->
  effects (dispatch evs g) = effects (dispatch evs g') /\
  result (dispatch evs g) = result (dispatch evs g').
Proof.
  intros H. induction evs as [| ev evs [IHe IHr]]; [now split |].
  cbn [dispatch]. unfold mbind, M_bind, bind.
  destruct (handle_reads_client ev g g' H) as [He Hr].
  rewrite <- He, <- Hr.
  destruct (result (handle ev g)); cbn [effects result after]; [now split |].
  rewrite !handle_globals. split; congruence.
Qed.

Lemma handle_never_wit ev g : forallb (fun e => negb (uses_wit e)) (effects (handle ev g)) = true.
Proof.
  destruct ev as [| m]; cbn [handle].
  - rewrite on_ready_run. on_ready_cases g; reflexivity.
  - rewrite on_message_run. on_message_cases g; reflexivity.
Qed.

(** ** The message handler *)

(** C1: a message from someone else whose lowercased text starts with
    "twangy" gets exactly one send, to the channel the message came from,
    with the text "Hello " followed by the author's mention; the handler
    then returns. *)
Theorem on_message_greets g bot m :
  logged_in g bot ->
  user_eq (author m) bot = false ->
  Str.startswith (Str.lower (content m)) "twangy" = true ->
  on_message m g =
  mkOutcome g [ESend (channel m) ("Hello " +:+ user_mention (author m))] (inr tt).
Proof.
  intros Hg Hauthor Htrigger. rewrite on_message_run, Hg. cbn [user_of client_user user eq_user].
  now rewrite Hauthor, Htrigger.
Qed.

(** C2: a message written by the bot itself has no effect at all, whatever
    its text: nothing is sent, nothing is written, the handler returns. *)
Theorem on_message_ignores_self g bot m :
  logged_in g bot ->
  user_eq (author m) bot = true ->
  on_message m g = mkOutcome g [] (inr tt).
Proof.
  intros Hg Hauthor. rewrite on_message_run, Hg. cbn [user_of client_user user eq_user].
  now rewrite Hauthor.
Qed.

(** C3: a message whose lowercased text does not start with "twangy" gets
    no send (the handler has no effect at all), whoever wrote it and
    whatever the namespace holds. *)
Theorem on_message_needs_trigger g m :
  Str.startswith (Str.lower (content m)) "twangy" = false ->
  effects (on_message m g) = [] /\ sends (effects (on_message m g)) = [].
Proof.
  intros Htrigger. rewrite on_message_run, Htrigger.
  destruct (g !! "discord_client") as [v |]; [| now split].
  destruct (user_of v) as [e | self]; [now split |].
  destruct (eq_user _ _); now split.
Qed.


(** C9: the trigger is a bare prefix test.  Whatever follows "twangy" in
    the lowercased text, a letter as in "twangyfoo" included, a message from
    someone else is answered by the one send. *)
Theorem on_message_no_word_boundary g bot m rest :
  logged_in g bot ->
  user_eq (author m) bot = false ->
  Str.lower (content m) = "twangy" +:+ rest ->
  on_message m g =
  mkOutcome g [ESend (channel m) ("Hello " +:+ user_mention (author m))] (inr tt).
Proof.
  intros Hg Hauthor Hrest. rewrite on_message_run, Hg. cbn [user_of client_user user eq_user].
  now rewrite Hauthor, Hrest, startswith_app.
Qed.

(** C10: one run of the message handler sends at most once, for every
    message and every namespace. *)
Theorem on_message_at_most_one_send g m :
  length (sends (effects (on_message m g))) <= 1.
Proof.
  rewrite on_message_run.
  on_message_cases g; cbn [effects sends length]; lia.
Qed.

(** C8: the message handler keeps no state.  In any two namespaces that
    hold the same bot, the same message has the same effects and the same
    result; the handler leaves the namespace as it found it; and whatever
    events were handled before, the message is handled as if it were the
    first. *)
Theorem on_message_stateless g1 g2 bot m :
  logged_in g1 bot ->
  logged_in g2 bot ->
  (effects (on_message m g1) = effects (on_message m g2) /\
   result (on_message m g1) = result (on_message m g2)) /\
  (globals_after (on_message m g1) = g1 /\
   globals_after (on_message m g2) = g2) /\
  (forall history,
     on_message m (globals_after (dispatch history g1)) = on_message m g1).
Proof.
  intros H1 H2. repeat split.
  - apply (handle_reads_client (Received m)). unfold logged_in in *. congruence.
  - apply (handle_reads_client (Received m)). unfold logged_in in *. congruence.
  - apply on_message_globals.
  - apply on_message_globals.
  - intros history. now rewrite dispatch_globals.
Qed.

(** ** The ready handler *)

(** C5: the ready handler prints twice and does nothing else: first the
    line "Username: " with the bot's name, then the line "Id: " with the
    bot's id, each closed by a line feed.  The name occurs in the first, the
    id in the second; and when neither holds a line feed of its own, the
    output reads as exactly these two lines. *)
Theorem on_ready_prints_name_then_id g bot :
  logged_in g bot ->
  on_ready g =
    mkOutcome g [EStdout (("Username: " +:+ user_name bot) +:+ newline);
                 EStdout (("Id: " +:+ user_id bot) +:+ newline)] (inr tt) /\
  Str.contains ("Username: " +:+ user_name bot) (user_name bot) = true /\
  Str.contains ("Id: " +:+ user_id bot) (user_id bot) = true /\
  sends (effects (on_ready g)) = [] /\
  (one_line (user_name bot) -> one_line (user_id bot) ->
   lines (stdout (effects (on_ready g))) =
     ["Username: " +:+ user_name bot; "Id: " +:+ user_id bot]).
Proof.
  intros Hg.
  assert (Hrun : on_ready g =
    mkOutcome g [EStdout (("Username: " +:+ user_name bot) +:+ newline);
                 EStdout (("Id: " +:+ user_id bot) +:+ newline)] (inr tt))
    by now rewrite on_ready_run, Hg.
  split; [exact Hrun |]. rewrite Hrun. cbn [effects sends stdout].
  split; [apply contains_app_r, contains_here, startswith_refl |].
  split; [apply contains_app_r, contains_here, startswith_refl |].
  split; [reflexivity |].
  intros Hname Hid. unfold lines.
  rewrite (string_app_assoc ("Username: " +:+ user_name bot) newline).
  rewrite lines_from_line by (apply one_line_app; [reflexivity | exact Hname]).
  rewrite (string_app_assoc ("Id: " +:+ user_id bot) newline).
  rewrite lines_from_line by (apply one_line_app; [reflexivity | exact Hid]).
  reflexivity.
Qed.

(** ** The Wit client *)

(** C7: no handler touches the Wit client.  Whether [wit_client] is bound,
    to whatever value, or not bound at all, each event, message or ready,
    has the same effects and the same result, and so has every run of
    events; no effect of a handler is a call into Wit; and the handler
    leaves the namespace, the binding included, as it was. *)
Theorem handlers_ignore_wit_client g v ev :
  (effects (handle ev (<["wit_client" := v]> g)) =
     effects (handle ev (delete "wit_client" g)) /\
   result (handle ev (<["wit_client" := v]> g)) =
     result (handle ev (delete "wit_client" g))) /\
  (forall evs,
     effects (dispatch evs (<["wit_client" := v]> g)) =
       effects (dispatch evs (delete "wit_client" g)) /\
     result (dispatch evs (<["wit_client" := v]> g)) =
       result (dispatch evs (delete "wit_client" g))) /\
  forallb (fun e => negb (uses_wit e)) (effects (handle ev g)) = true /\
  globals_after (handle ev g) = g.
Proof.
  assert (Hsame : (<["wit_client" := v]> g) !! "discord_client" =
                  delete "wit_client" g !! "discord_client").
  { rewrite lookup_insert_ne by discriminate.
    now rewrite lookup_delete_ne by discriminate. }
  split; [now apply handle_reads_client |].
  split; [intros evs; now apply dispatch_reads_client |].
  split; [apply handle_never_wit | apply handle_globals].
Qed.

End Handlers.

(** ** The script *)

Section Script.

Context `{D : Discord}.

Implicit Types (g : gmap string Value).

(** Sequencing, by the outcome of the first part. *)
Lemma bind_ok {A B} (m : M A) (f : A -> M B) g g' tr a :
  m g = mkOutcome g' tr (inr a) ->
  (m ≫= f) g = after tr (f a g').
Proof. intros H. unfold mbind, M_bind, bind. now rewrite H. Qed.

Lemma after_nil {A} (o : Outcome A) : after [] o = o.
Proof. now destruct o. Qed.

Lemma after_after {A} tr tr' (o : Outcome A) :
  after tr (after tr' o) = after (tr ++ tr') o.
Proof. unfold after. cbn [globals_after effects result]. now rewrite app_assoc. Qed.

Lemma bind_raise {A B} (m : M A) (f : A -> M B) g g' tr e :
  m g = mkOutcome g' tr (inl e) ->
  (m ≫= f) g = mkOutcome g' tr (inl e).
Proof. intros H. unfold mbind, M_bind, bind. now rewrite H. Qed.

Lemma name_bound n v g : g !! n = Some v -> name n g = mkOutcome g [] (inr v).
Proof. intros H. unfold name. now rewrite H. Qed.

Lemma name_unbound n g :
  g !! n = None -> name n g = mkOutcome g [] (inl (NameError n)).
Proof. intros H. unfold name. now rewrite H. Qed.

(** [discord_client = discord.Client()] *)
Lemma build_discord_client g :
  g !! "discord" = Some (VModule "discord") ->
  (d ← name "discord"; c ← new_Client d; assign "discord_client" c) g =
  mkOutcome (<["discord_client" := VClient {| user := None |}]> g)
    [ENewClient] (inr tt).
Proof.
  intros H. rewrite (bind_ok _ _ _ _ _ _ (name_bound _ _ _ H)). reflexivity.
Qed.

(** [wit_client = Wit(WIT_TOKEN)] *)
Lemma build_wit_client g t :
  g !! "Wit" = Some VWitClass ->
  g !! "WIT_TOKEN" = Some (VStr t) ->
  (W ← name "Wit"; t ← name "WIT_TOKEN"; w ← new_Wit W t; assign "wit_client" w) g =
  mkOutcome (<["wit_client" := VWit t]> g) [ENewWit t] (inr tt).
Proof.
  intros HW Ht. rewrite (bind_ok _ _ _ _ _ _ (name_bound _ _ _ HW)).
  rewrite (bind_ok _ _ _ _ _ _ (name_bound _ _ _ Ht)). reflexivity.
Qed.

(** A decorator whose receiver is not bound raises before the coroutine is
    made: nothing is registered and the coroutine's name stays as it was. *)
Lemma decorated_def_unbound receiver coroutine g :
  g !! receiver = None ->
  decorated_def receiver coroutine g =
  mkOutcome g [] (inl (NameError receiver)).
Proof.
  intros H. unfold decorated_def.
  now rewrite (bind_raise _ _ _ _ _ _ (name_unbound _ _ H)).
Qed.

(** With a client as receiver the coroutine is registered and bound. *)
Lemma decorated_def_client receiver coroutine c g :
  g !! receiver = Some (VClient c) ->
  decorated_def receiver coroutine g =
  mkOutcome (<[coroutine := VCoroutine coroutine]> g)
    [ERegister coroutine] (inr tt).
Proof.
  intros H. unfold decorated_def.
  rewrite (bind_ok _ _ _ _ _ _ (name_bound _ _ _ H)). reflexivity.
Qed.

(** [discord_client.run(DISCORD_TOKEN)] *)
Lemma run_client g c t :
  g !! "discord_client" = Some (VClient c) ->
  g !! "DISCORD_TOKEN" = Some (VStr t) ->
  (c ← name "discord_client"; t ← name "DISCORD_TOKEN"; run c t) g =
  mkOutcome g [ERun t] (inr tt).
Proof.
  intros Hc Ht. rewrite (bind_ok _ _ _ _ _ _ (name_bound _ _ _ Hc)).
  rewrite (bind_ok _ _ _ _ _ _ (name_bound _ _ _ Ht)). reflexivity.
Qed.

Ltac lookup_bound :=
  repeat (rewrite lookup_insert_ne by discriminate);
  first [apply lookup_insert_eq | assumption].

(** The script as far as the first decorator, then whatever the decorator's
    receiver is bound to decides. *)
Lemma script_run receiver g :
  script receiver g =
  after [ENewClient; ENewWit "xxx"] (rest_of_script receiver (with_clients g)).
Proof.
  unfold script.
  rewrite (bind_ok (assign "discord" _) _ g _ [] tt eq_refl).
  rewrite (bind_ok (assign "Wit" _) _ _ _ [] tt eq_refl).
  rewrite (bind_ok (assign "DISCORD_TOKEN" _) _ _ _ [] tt eq_refl).
  rewrite (bind_ok (assign "WIT_TOKEN" _) _ _ _ [] tt eq_refl).
  erewrite bind_ok by (apply build_discord_client; lookup_bound).
  erewrite bind_ok by (apply build_wit_client; lookup_bound).
  rewrite !after_nil, after_after. reflexivity.
Qed.

(** The script with [discord_client] as the decorators' receiver runs to
    the end: both coroutines are registered, then the client runs. *)
Lemma script_discord_client_runs g :
  script "discord_client" g =
  mkOutcome (with_handlers g)
    [ENewClient; ENewWit "xxx"; ERegister "on_message"; ERegister "on_ready";
     ERun "xxx"] (inr tt).
Proof.
  rewrite script_run. unfold rest_of_script, with_handlers.
  erewrite bind_ok
    by (eapply decorated_def_client; unfold with_clients; lookup_bound).
  erewrite bind_ok
    by (eapply decorated_def_client; unfold with_clients; lookup_bound).
  erewrite run_client by (unfold with_clients; lookup_bound).
  reflexivity.
Qed.

(** C6: started as it is, the script does not get through its start-up.
    In a namespace where [client] is not bound it builds the two clients and
    then raises [NameError] at the first decorator, [@client.event]: no
    coroutine is registered, none is bound, and the client never runs. *)
Theorem main_py_raises_NameError g :
  g !! "client" = None ->
  main_py g =
    mkOutcome (with_clients g) [ENewClient; ENewWit "xxx"]
      (inl (NameError "client")) /\
  globals_after (main_py g) !! "on_message" = g !! "on_message" /\
  globals_after (main_py g) !! "on_ready" = g !! "on_ready".
Proof.
  intros Hfree.
  assert (Hrun : main_py g =
    mkOutcome (with_clients g) [ENewClient; ENewWit "xxx"]
      (inl (NameError "client"))).
  { unfold main_py. rewrite script_run. unfold rest_of_script.
    erewrite bind_raise
      by (apply decorated_def_unbound; unfold with_clients; lookup_bound).
    reflexivity. }
  rewrite Hrun. cbn [globals_after]. unfold with_clients.
  repeat split; now repeat (rewrite lookup_insert_ne by discriminate).
Qed.

End Script.

(** ** The properties on the demo server *)

Section OnDemo.

Import Demo.

Lemma namespace_logged_in : logged_in namespace twangy.
Proof. apply lookup_insert_eq. Defined.

Lemma namespace_and_more_logged_in : logged_in namespace_and_more twangy.
Proof.
  unfold logged_in, namespace_and_more.
  rewrite lookup_insert_ne by discriminate. apply lookup_insert_eq.
Defined.

(** alice says "twangy ping" and is greeted in the same channel. *)
Lemma on_message_greets_witness :
  on_message (said alice "twangy ping") namespace =
  mkOutcome namespace [ESend "general" "Hello <@2>"] (inr tt).
Proof.
  apply (on_message_greets namespace twangy (said alice "twangy ping")).
  - exact namespace_logged_in.
  - reflexivity.
  - reflexivity.
Defined.

(** The bot's own "twangy test" is not answered. *)
Lemma on_message_ignores_self_witness :
  on_message (said twangy "twangy test") namespace =
  mkOutcome namespace [] (inr tt).
Proof.
  apply (on_message_ignores_self namespace twangy (said twangy "twangy test")).
  - exact namespace_logged_in.
  - reflexivity.
Defined.

(** "hello twangy" has the word, but not in front. *)
Lemma on_message_needs_trigger_witness :
  effects (on_message (said alice "hello twangy") namespace) = [] /\
  sends (effects (on_message (said alice "hello twangy") namespace)) = [].
Proof.
  apply (on_message_needs_trigger namespace (said alice "hello twangy")).
  reflexivity.
Defined.


(** "twangyfoo" is answered as well. *)
Lemma on_message_no_word_boundary_witness :
  on_message (said alice "twangyfoo") namespace =
  mkOutcome namespace [ESend "general" "Hello <@2>"] (inr tt).
Proof.
  apply (on_message_no_word_boundary namespace twangy (said alice "twangyfoo") "foo").
  - exact namespace_logged_in.
  - reflexivity.
  - reflexivity.
Defined.

(** One more global name makes no difference to the handler. *)
Lemma on_message_stateless_witness :
  effects (on_message (said alice "twangy ping") namespace) =
  effects (on_message (said alice "twangy ping") namespace_and_more).
Proof.
  apply (on_message_stateless namespace namespace_and_more twangy
           (said alice "twangy ping")
           namespace_logged_in namespace_and_more_logged_in).
Defined.

(** The two lines for [twangy]. *)
Lemma on_ready_prints_name_then_id_witness :
  on_ready namespace =
  mkOutcome namespace
    [EStdout ("Username: Twangy" +:+ newline); EStdout ("Id: 1" +:+ newline)]
    (inr tt).
Proof.
  apply (on_ready_prints_name_then_id namespace twangy namespace_logged_in).
Defined.

(** alice's message with the Wit client rebound, and with none. *)
Lemma handlers_ignore_wit_client_witness :
  effects (handle (Received (said alice "twangy ping"))
             (<["wit_client" := VStr "gone"]> namespace)) =
  effects (handle (Received (said alice "twangy ping")) namespace_without_wit).
Proof.
  apply (handlers_ignore_wit_client namespace (VStr "gone")
           (Received (said alice "twangy ping"))).
Defined.

(** The script, started in the empty namespace. *)
Lemma main_py_raises_NameError_witness :
  main_py ∅ =
  mkOutcome (with_clients ∅) [ENewClient; ENewWit "xxx"]
    (inl (NameError "client")).
Proof.
  apply (main_py_raises_NameError ∅). apply lookup_empty.
Defined.

End OnDemo.


(** * Further properties of the message handler *)

Section MoreStrFacts.

Import Str.

Lemma lower_app s t : lower (s +:+ t) = lower s +:+ lower t.
Proof.
  induction s as [| c s IH]; [reflexivity |].
  rewrite string_app_cons. cbn [lower]. now rewrite IH, string_app_cons.
Qed.

Lemma lower_length s : String.length (lower s) = String.length s.
Proof. induction s as [| c s IH]; cbn [lower String.length]; congruence. Qed.

(** A text shorter than the prefix does not start with it. *)
Lemma startswith_short s p :
  String.length s < String.length p -> startswith s p = false.
Proof.
  revert s. induction p as [| c p IH]; intros s H; cbn [String.length] in H.
  - lia.
  - destruct s as [| d s]; [reflexivity |]. cbn [String.length] in H.
    cbn [startswith]. rewrite IH by lia. apply andb_false_r.
Qed.

(** What follows the first [length p] characters is not looked at. *)
Lemma startswith_app_long a b p :
  String.length p <= String.length a ->
  startswith (a +:+ b) p = startswith a p.
Proof.
  revert a. induction p as [| c p IH]; intros a H; [reflexivity |].
  destruct a as [| d a]; cbn [String.length] in H; [lia |].
  rewrite string_app_cons. cbn [startswith]. rewrite IH by lia. reflexivity.
Qed.

Lemma lower_char_inv c : recased_char (lower_char c) c.
Proof.
  destruct c as [[] [] [] [] [] [] [] []];
    first [left; reflexivity | right; right; reflexivity].
Qed.

(** Every text is its lowercase form with some letters made capital. *)
Lemma recased_from_lower s : recased (lower s) s.
Proof.
  induction s as [| c s IH]; cbn [lower]; constructor;
    [apply lower_char_inv | exact IH].
Qed.

(** A lowercased text splits where the text itself does. *)
Lemma lower_split s a b :
  lower s = a +:+ b ->
  exists p r, s = p +:+ r /\ lower p = a /\ lower r = b.
Proof.
  revert s. induction a as [| x a IH]; intros s H.
  - exists "", s. now repeat split.
  - destruct s as [| c s]; [discriminate |].
    rewrite string_app_cons in H. cbn [lower] in H.
    injection H as Hc Hs. destruct (IH _ Hs) as (p & r & -> & Hp & Hr).
    exists (String c p), r. rewrite string_app_cons. cbn [lower].
    now rewrite Hc, Hp.
Qed.

(** The texts that pass the trigger test: a spelling of "twangy" in small
    and capital letters, then anything. *)
Lemma trigger_iff s :
  startswith (lower s) "twangy" = true <->
  exists p r, s = p +:+ r /\ recased "twangy" p.
Proof.
  split.
  - intros H. apply startswith_spec in H as [r' H].
    apply lower_split in H as (p & r & -> & Hp & _).
    exists p, r. split; [reflexivity |].
    rewrite <- Hp. apply recased_from_lower.
  - intros (p & r & -> & Hp). apply recased_lower in Hp.
    rewrite lower_app, Hp. apply (startswith_app "twangy").
Qed.

End MoreStrFacts.

Section MoreHandlers.

Context `{D : Discord}.

Implicit Types (g : gmap string Value) (m : Message) (bot : User).

(** X1: of the text of a message the handler uses the trigger test and
    nothing more.  Two texts on which the test agrees, put into the same
    message, give the same outcome in every namespace: the greeting never
    carries anything of the text. *)
Theorem on_message_reads_trigger_only g m text text' :
  Str.startswith (Str.lower text) "twangy" =
    Str.startswith (Str.lower text') "twangy" ->
  on_message (with_content m text) g = on_message (with_content m text') g.
Proof.
  intros H. rewrite !on_message_run.
  cbn [with_content author content channel]. now rewrite H.
Qed.

(** X2: what follows the sixth character of the text is never looked at.
    Two texts with the same first six characters or more, whatever comes
    after, give the same outcome. *)
Theorem on_message_reads_six_characters g m head tail tail' :
  6 <= String.length head ->
  on_message (with_content m (head +:+ tail)) g =
  on_message (with_content m (head +:+ tail')) g.
Proof.
  intros H. rewrite !on_message_run.
  cbn [with_content author content channel].
  rewrite !lower_app.
  rewrite !(startswith_app_long (Str.lower head))
    by (rewrite lower_length; exact H).
  reflexivity.
Qed.

(** X3: a message of fewer than six characters, the empty one included, is
    never answered: the handler has no effect on it, whoever wrote it and in
    every namespace. *)
Theorem on_message_short_text g m :
  String.length (content m) < 6 ->
  effects (on_message m g) = [].
Proof.
  intros H. rewrite on_message_run.
  rewrite (startswith_short (Str.lower (content m)) "twangy")
    by (rewrite lower_length; exact H).
  destruct (g !! "discord_client") as [v |]; [| reflexivity].
  destruct (user_of v) as [e | self]; [reflexivity |].
  now destruct (eq_user _ _).
Qed.

(** X4: a greeting is no trigger.  A message whose text is a greeting of
    the handler, "Hello " and any mention, is not answered, whoever sends
    it, in whatever channel and namespace: greetings cannot set off further
    greetings. *)
Theorem on_message_greeting_is_no_trigger g who where_ mention :
  effects (on_message
             {| author := who; content := "Hello " +:+ mention;
                channel := where_ |} g) = [].
Proof.
  rewrite on_message_run. cbn [author content channel].
  change (Str.startswith (Str.lower ("Hello " +:+ mention)) "twangy")
    with false.
  destruct (g !! "discord_client") as [v |]; [| reflexivity].
  destruct (user_of v) as [e | self]; [reflexivity |].
  now destruct (eq_user _ _).
Qed.

(** X5: which messages are answered.  A message from someone else gets the
    greeting exactly when its text is "twangy", each letter small or
    capital, followed by anything. *)
Theorem on_message_answers_iff g bot m :
  logged_in g bot ->
  user_eq (author m) bot = false ->
  sends (effects (on_message m g)) =
    [(channel m, "Hello " +:+ user_mention (author m))] <->
  exists spelling rest,
    content m = spelling +:+ rest /\ Str.recased "twangy" spelling.
Proof.
  intros Hg Hauthor. rewrite <- trigger_iff.
  rewrite on_message_run, Hg. cbn [user_of client_user user eq_user].
  rewrite Hauthor.
  destruct (Str.startswith (Str.lower (content m)) "twangy");
    cbn [effects sends]; split; intros H; try reflexivity; discriminate.
Qed.

(** X7: whatever the namespace, the message handler does nothing but send
    into the channel the message came from: it never writes on standard
    output, never registers or runs anything, never sends elsewhere. *)
Theorem on_message_only_replies_in_place g m e :
  In e (effects (on_message m g)) ->
  exists text, e = ESend (channel m) text.
Proof.
  rewrite on_message_run. on_message_cases g; cbn [effects In]; try tauto.
  intros [<- | []]. now eexists.
Qed.

(** X9: the ready handler prints both lines or none.  In every namespace it
    either finds the client logged in, prints the two lines and returns, or
    raises with nothing printed. *)
Theorem on_ready_all_or_nothing g :
  (exists bot, logged_in g bot /\
     on_ready g =
       mkOutcome g [EStdout (("Username: " +:+ user_name bot) +:+ newline);
                    EStdout (("Id: " +:+ user_id bot) +:+ newline)] (inr tt)) \/
  (effects (on_ready g) = [] /\ exists e, result (on_ready g) = inl e).
Proof.
  rewrite on_ready_run. unfold logged_in.
  destruct (g !! "discord_client") as [[| name | | [[bot |]] | |] |];
    cbn [user_of client_user user];
    try destruct (String.eqb name "discord");
    first [left; exists bot; now split
          | right; split; [reflexivity | eexists; reflexivity]].
Qed.

End MoreHandlers.

(** * Further properties of the script *)

Section MoreScript.

Context `{D : Discord}.

Implicit Types (g : gmap string Value).

Lemma script_with_run first second g :
  script_with first second g =
  after [ENewClient; ENewWit "xxx"]
    ((decorated_def first "on_message" ;;
      decorated_def second "on_ready" ;;
      (c ← name "discord_client"; t ← name "DISCORD_TOKEN"; run c t))
       (with_clients g)).
Proof.
  unfold script_with.
  rewrite (bind_ok (assign "discord" _) _ g _ [] tt eq_refl).
  rewrite (bind_ok (assign "Wit" _) _ _ _ [] tt eq_refl).
  rewrite (bind_ok (assign "DISCORD_TOKEN" _) _ _ _ [] tt eq_refl).
  rewrite (bind_ok (assign "WIT_TOKEN" _) _ _ _ [] tt eq_refl).
  erewrite bind_ok
    by (apply build_discord_client;
        repeat (rewrite lookup_insert_ne by discriminate);
        apply lookup_insert_eq).
  erewrite bind_ok
    by (apply build_wit_client;
        repeat (rewrite lookup_insert_ne by discriminate);
        apply lookup_insert_eq).
  rewrite !after_nil, after_after. reflexivity.
Qed.

(** X6: the decorator on line 26 reads the same unbound [client] as the one
    on line 11.  With the first receiver alone set to [discord_client], the
    script registers [on_message] and then raises [NameError] at the second
    decorator: [on_ready] is neither registered nor bound and the client
    never runs. *)
Theorem second_decorator_raises g :
  g !! "client" = None ->
  main_py = script_with "client" "client" /\
  script_with "discord_client" "client" g =
    mkOutcome (<["on_message" := VCoroutine "on_message"]> (with_clients g))
      [ENewClient; ENewWit "xxx"; ERegister "on_message"]
      (inl (NameError "client")) /\
  globals_after (script_with "discord_client" "client" g) !! "on_ready" =
    g !! "on_ready".
Proof.
  intros Hfree. split; [reflexivity |].
  assert (Hrun : script_with "discord_client" "client" g =
    mkOutcome (<["on_message" := VCoroutine "on_message"]> (with_clients g))
      [ENewClient; ENewWit "xxx"; ERegister "on_message"]
      (inl (NameError "client"))).
  { rewrite script_with_run.
    erewrite bind_ok
      by (eapply decorated_def_client; unfold with_clients;
          repeat (rewrite lookup_insert_ne by discriminate);
          apply lookup_insert_eq).
    erewrite bind_raise
      by (apply decorated_def_unbound; unfold with_clients;
          repeat (rewrite lookup_insert_ne by discriminate); exact Hfree).
    reflexivity. }
  split; [exact Hrun |]. rewrite Hrun. cbn [globals_after].
  unfold with_clients. now repeat (rewrite lookup_insert_ne by discriminate).
Qed.

End MoreScript.

Section MoreOnDemo.

Import Demo.

(** "twangy ping" and "TWANGY, are you there?" are handled alike. *)
Lemma on_message_reads_trigger_only_witness :
  on_message (with_content (said alice "") "twangy ping") namespace =
  on_message (with_content (said alice "") "TWANGY, are you there?") namespace.
Proof.
  apply (on_message_reads_trigger_only namespace (said alice "")
           "twangy ping" "TWANGY, are you there?").
  reflexivity.
Defined.

(** "twang it" and "twang on" agree on six characters and are handled
    alike. *)
Lemma on_message_reads_six_characters_witness :
  on_message (with_content (said alice "") ("twang " +:+ "it")) namespace =
  on_message (with_content (said alice "") ("twang " +:+ "on")) namespace.
Proof.
  apply (on_message_reads_six_characters namespace (said alice "")
           "twang " "it" "on").
  cbn [String.length]. lia.
Defined.

(** "twang" is one letter short. *)
Lemma on_message_short_text_witness :
  effects (on_message (said alice "twang") namespace) = [].
Proof.
  apply (on_message_short_text namespace (said alice "twang")).
  cbn [said content String.length]. lia.
Defined.

(** "TwAnGy!" is answered. *)
Lemma on_message_answers_iff_witness :
  sends (effects (on_message (said alice "TwAnGy!") namespace)) =
    [("general", "Hello <@2>")].
Proof.
  apply (on_message_answers_iff namespace twangy (said alice "TwAnGy!")
           namespace_logged_in eq_refl).
  exists "TwAnGy", "!". split; [reflexivity |].
  repeat constructor; first [left; reflexivity | right; right; reflexivity].
Defined.

(** alice's greeting is to "general". *)
Lemma on_message_only_replies_in_place_witness :
  exists text,
    ESend (D := discord) "general" "Hello <@2>" =
    ESend (channel (said alice "twangy ping")) text.
Proof.
  apply (on_message_only_replies_in_place namespace
           (said alice "twangy ping") (ESend (D := discord) "general" "Hello <@2>")).
  rewrite on_message_run, namespace_logged_in. left. reflexivity.
Defined.

(** The script with the first decorator set right, from the empty
    namespace. *)
Lemma second_decorator_raises_witness :
  script_with "discord_client" "client" ∅ =
  mkOutcome (<["on_message" := VCoroutine "on_message"]> (with_clients ∅))
    [ENewClient; ENewWit "xxx"; ERegister "on_message"]
    (inl (NameError "client")).
Proof.
  apply (second_decorator_raises ∅). apply lookup_empty.
Defined.

End MoreOnDemo.

(** * Text of any code points *)

Section UnicodeFacts.

Lemma N_of_ascii_eqb a b : (N_of_ascii a =? N_of_ascii b)%N = Ascii.eqb a b.
Proof.
  destruct (Ascii.eqb_spec a b) as [-> | Hne].
  - apply N.eqb_refl.
  - apply N.eqb_neq. intros H. apply Hne.
    now rewrite <- (ascii_N_embedding a), <- (ascii_N_embedding b), H.
Qed.

(** Below 256 the two models of [str.lower] are one. *)
Lemma to_lower_of_ascii a :
  Unicode.to_lower (N_of_ascii a) = [N_of_ascii (Str.lower_char a)].
Proof. destruct a as [[] [] [] [] [] [] [] []]; reflexivity. Qed.

(** Where [upper_char] changes a character it gives what [str.upper]
    gives. *)
Lemma to_upper_of_ascii a :
  Unicode.to_upper (N_of_ascii a) = [N_of_ascii (Str.upper_char a)] \/
  Str.upper_char a = a.
Proof.
  destruct a as [[] [] [] [] [] [] [] []];
    first [left; reflexivity | right; reflexivity].
Qed.

Lemma of_string_cons a s :
  Unicode.of_string (String a s) = N_of_ascii a :: Unicode.of_string s.
Proof. reflexivity. Qed.

Lemma lower_of_string s :
  Unicode.lower (Unicode.of_string s) = Unicode.of_string (Str.lower s).
Proof.
  induction s as [| a s IH]; [reflexivity |].
  cbn [Str.lower]. rewrite !of_string_cons.
  unfold Unicode.lower in *. cbn [flat_map].
  now rewrite to_lower_of_ascii, IH.
Qed.

Lemma startswith_of_string s p :
  Unicode.startswith (Unicode.of_string s) (Unicode.of_string p) =
  Str.startswith s p.
Proof.
  revert s. induction p as [| b p IH]; intros s; [reflexivity |].
  destruct s as [| a s]; [reflexivity |].
  rewrite !of_string_cons. cbn [Unicode.startswith Str.startswith].
  now rewrite N_of_ascii_eqb, IH.
Qed.

(** The mappings stay among the code points they are given for. *)
Lemma modelled_below_256 c :
  (c < 256)%N -> exists a, c = N_of_ascii a.
Proof.
  intros H. exists (ascii_of_N c). symmetry. now apply N_ascii_embedding.
Qed.

Lemma modelled_cases c :
  Unicode.modelled c = true ->
  (exists a, c = N_of_ascii a) \/
  In c [0x178; 0x2BE; 0x308; 0x30A; 0x331; 0x39C; 0x3BC;
        0x1E96; 0x1E97; 0x1E98; 0x1E99; 0x1E9A]%N.
Proof.
  unfold Unicode.modelled. intros H. apply orb_prop in H as [H | H].
  - left. apply modelled_below_256. now apply N.ltb_lt.
  - right. apply existsb_exists in H as (x & Hx & Hc).
    apply N.eqb_eq in Hc. now subst.
Qed.

Lemma modelled_to_lower c :
  Unicode.modelled c = true ->
  forallb Unicode.modelled (Unicode.to_lower c) = true.
Proof.
  intros H. apply modelled_cases in H as [[a ->] | H].
  - destruct a as [[] [] [] [] [] [] [] []]; reflexivity.
  - cbn [In] in H.
    repeat (destruct H as [<- | H]; [reflexivity |]). destruct H.
Qed.

Lemma modelled_to_upper c :
  Unicode.modelled c = true ->
  forallb Unicode.modelled (Unicode.to_upper c) = true.
Proof.
  intros H. apply modelled_cases in H as [[a ->] | H].
  - destruct a as [[] [] [] [] [] [] [] []]; reflexivity.
  - cbn [In] in H.
    repeat (destruct H as [<- | H]; [reflexivity |]). destruct H.
Qed.

End UnicodeFacts.

Section WideHandler.

Context `{D : Discord}.

(** On a message of characters below 256 the handler on code points is
    [on_message]. *)
Lemma on_message_widen (m : Message) (g : gmap string Value) :
  Wide.on_message (widen m) g = on_message m g.
Proof.
  unfold Wide.on_message, on_message, widen.
  cbn [Wide.author Wide.content Wide.channel].
  now rewrite lower_of_string, startswith_of_string.
Qed.

End WideHandler.

